(** * colourizer.py: recolouring the good contigs of a karyotype file

    The script reads [asm.karyotype] line by line, looks the fourth
    whitespace-separated field of each line up in the names loaded from
    [good_contigs.txt], and writes the line to [asm.karyotype2], with
    every ['vvlgrey'] turned into ['red'] when the name was found.

    A Python [str] is modelled as the list of its code points, a text
    file as the text which the text layer hands to the program (after
    decoding and newline translation, so that a line ends in U+000A),
    and the output file as the sequence of the strings passed to
    [write]. *)

From Equations Require Import Equations.
From Stdlib Require Import List NArith Arith Bool Lia.
From Stdlib Require String Ascii.
Import ListNotations String.StringSyntax.

Local Open Scope N_scope.
Local Open Scope string_scope.
Local Open Scope list_scope.

(** * The script *)

(** ** Strings *)

Abbreviation char := N (only parsing).
Abbreviation text := (list N) (only parsing).

(** A literal of the source, as the list of its code points. *)
Definition str (s : String.string) : text :=
  map Ascii.N_of_ascii (String.list_ascii_of_string s).

Definition nl : char := 10.

(** [str.isspace] on one code point, as [str.rstrip()] and
    [str.split()] use it: U+0009 to U+000D, U+001C to U+0020, U+0085,
    U+00A0, U+1680, U+2000 to U+200A, U+2028, U+2029, U+202F, U+205F
    and U+3000. *)
Definition isspace (c : char) : bool :=
  ((9 <=? c) && (c <=? 13)) || ((28 <=? c) && (c <=? 32))
  || (c =? 133) || (c =? 160) || (c =? 5760)
  || ((8192 <=? c) && (c <=? 8202))
  || (c =? 8232) || (c =? 8233) || (c =? 8239) || (c =? 8287) || (c =? 12288).

Fixpoint text_eqb (a b : text) : bool :=
  match a, b with
  | [], [] => true
  | x :: a', y :: b' => (x =? y) && text_eqb a' b'
  | _, _ => false
  end.

(** [s.rstrip()]: [s] without its trailing white space. *)
Fixpoint rstrip (s : text) : text :=
  match s with
  | [] => []
  | c :: s' =>
      match rstrip s' with
      | [] => if isspace c then [] else [c]
      | r => c :: r
      end
  end.

(** [s.split()]: the maximal runs of characters that are not white space.
    [cur] holds the run being scanned, last character first. *)
Definition flush (cur : text) : list text :=
  match cur with
  | [] => []
  | _ => [rev cur]
  end.

Fixpoint split_from (cur : text) (s : text) : list text :=
  match s with
  | [] => flush cur
  | c :: s' =>
      if isspace c then flush cur ++ split_from [] s'
      else split_from (c :: cur) s'
  end.

Definition split (s : text) : list text := split_from [] s.

(** [strip_prefix p s] is the rest of [s] after its prefix [p], if [s]
    starts with [p]. *)
Fixpoint strip_prefix (p s : text) : option text :=
  match p, s with
  | [], _ => Some s
  | _ :: _, [] => None
  | x :: p', y :: s' => if x =? y then strip_prefix p' s' else None
  end.

(** Case analysis on a value that keeps the equation, for the recursion
    of [replace_ne]. *)
Definition inspect {A : Type} (x : A) : { y : A | x = y } := exist _ x eq_refl.

(** [s.replace(o :: old, new)] for a pattern that is not empty: the
    occurrences are found from the left and do not overlap. *)
Equations? replace_ne (o : char) (old new : text) (s : text) : text
  by wf (length s) lt :=
  replace_ne o old new [] := [];
  replace_ne o old new (c :: s) with inspect (strip_prefix (o :: old) (c :: s)) := {
    | exist _ (Some rest) E := new ++ replace_ne o old new rest;
    | exist _ None _ := c :: replace_ne o old new s }.
Proof.
  assert (L : forall p t r,
             strip_prefix p t = Some r -> (length r <= length t)%nat).
  { induction p as [|x p IH]; intros [|y t] r; simpl; intros H;
      try discriminate; try (injection H as <-; simpl; lia).
    destruct (x =? y); [|discriminate].
    specialize (IH t r H). lia. }
  destruct (o =? c); [|discriminate E].
  specialize (L old s rest E). simpl. lia.
Defined.

(** [s.replace(old, new)]; an empty [old] matches before every character
    and at the end. *)
Definition replace (old new s : text) : text :=
  match old with
  | [] => new ++ flat_map (fun c => c :: new) s
  | o :: old' => replace_ne o old' new s
  end.

Definition vvlgrey : text := Eval cbv in str "vvlgrey".
Definition red : text := Eval cbv in str "red".

Definition recolour (line : text) : text := replace vvlgrey red line.

(** ** Files *)

(** Iterating over a text file yields its lines, each with its newline;
    only the last line can come without one. *)
Fixpoint readlines (s : text) : list text :=
  match s with
  | [] => []
  | c :: s' =>
      if c =? nl then [c] :: readlines s'
      else match readlines s' with
           | [] => [[c]]
           | l :: ls => (c :: l) :: ls
           end
  end.

(** ** The program *)

Inductive exn := OSError | IndexError.

Inductive res (A : Type) :=
| Ok (a : A)
| Raise (e : exn).
Arguments Ok {A} a.
Arguments Raise {A} e.

(** [l[i]] *)
Definition getitem {A : Type} (l : list A) (i : nat) : res A :=
  match nth_error l i with
  | Some x => Ok x
  | None => Raise IndexError
  end.

(** [x in l] for a list of strings. *)
Definition contains (x : text) (l : list text) : bool :=
  existsb (text_eqb x) l.

(** [[l.rstrip() for l in fin2]] *)
Definition load_tigs (fin2 : text) : list text := map rstrip (readlines fin2).

(** [parts = line.rstrip().split()] *)
Definition parts (line : text) : list text := split (rstrip line).

(** The test of the [if]: [parts[3] in tigs]. *)
Definition is_good (tigs : list text) (line : text) : res bool :=
  match getitem (parts line) 3 with
  | Ok p3 => Ok (contains p3 tigs)
  | Raise e => Raise e
  end.

(** The body of the loop: what is passed to [fout.write]. *)
Definition body (tigs : list text) (line : text) : res text :=
  match is_good tigs line with
  | Ok true => Ok (recolour line)
  | Ok false => Ok line
  | Raise e => Raise e
  end.

(** [for line in fin: ...], with the strings written to [fout] so far as
    the state.  An exception leaves the loop and keeps what was written. *)
Fixpoint for_lines (tigs : list text) (lines : list text) (fout : list text)
  : list text * option exn :=
  match lines with
  | [] => (fout, None)
  | line :: rest =>
      match body tigs line with
      | Ok out => for_lines tigs rest (fout ++ [out])
      | Raise e => (fout, Some e)
      end
  end.

(** The three files as the script finds them: the text of each input
    file, or [None] when it cannot be opened for reading, and whether
    the output file can be opened for writing. *)
Record files := {
  asm_karyotype : option text;
  good_contigs_txt : option text;
  asm_karyotype2_writable : bool
}.

(** How a run ends: the exception that left the script, if any, and the
    strings written to [asm.karyotype2], or [None] when that file was
    never opened (and so was left as it was). *)
Record outcome := {
  raised : option exn;
  asm_karyotype2 : option (list text)
}.

(** The [with] statement opens [asm.karyotype], then [asm.karyotype2]
    (created or truncated), then [good_contigs.txt]. *)
Definition main (fs : files) : outcome :=
  match asm_karyotype fs with
  | None => {| raised := Some OSError; asm_karyotype2 := None |}
  | Some fin =>
      if asm_karyotype2_writable fs then
        match good_contigs_txt fs with
        | None => {| raised := Some OSError; asm_karyotype2 := Some [] |}
        | Some fin2 =>
            let tigs := load_tigs fin2 in
            let (fout, e) := for_lines tigs (readlines fin) [] in
            {| raised := e; asm_karyotype2 := Some fout |}
        end
      else {| raised := Some OSError; asm_karyotype2 := None |}
  end.

(** The text of the output file once it is closed. *)
Definition contents (writes : list text) : text := concat writes.

(** * Notions of the statements *)

(** ** White space *)

Definition blank (w : text) : bool := forallb isspace w.

(** No trailing white space: the string is empty or ends in a character
    that is not white space. *)
Definition stripped (s : text) : Prop :=
  forall a c, s = a ++ [c] -> isspace c = false.

(** Counting the fields: [inword] tells whether a run is open. *)
Fixpoint count_fields (inword : bool) (s : text) : nat :=
  match s with
  | [] => if inword then 1 else 0
  | c :: s' =>
      if isspace c then (if inword then 1 else 0) + count_fields false s'
      else count_fields true s'
  end%nat.

Definition nonempty (cur : text) : bool :=
  match cur with [] => false | _ => true end.

(** The fields are not empty and hold no white space. *)
Definition word (f : text) : Prop :=
  f <> [] /\ forall c, In c f -> isspace c = false.

(** ** Recolouring *)

(** The suffixes of ['vvlgrey']. *)
Fixpoint tails (s : text) : list text :=
  match s with
  | [] => [[]]
  | _ :: s' => s :: tails s'
  end.

(** ** The lines of a file *)

(** A line with its newline, and a last line without one. *)
Definition terminated (l : text) : Prop :=
  exists b, l = b ++ [nl] /\ ~ In nl b.

Definition unterminated (l : text) : Prop :=
  l <> [] /\ ~ In nl l.

(** The shape of what iterating over a file yields. *)
Inductive lined : list (list N) -> Prop :=
| lined_nil : lined []
| lined_last l : unterminated l -> lined [l]
| lined_cons l ls : terminated l -> lined ls -> lined (l :: ls).

(** ** Lines with four fields *)

(** The line has the four fields that [parts[3]] needs. *)
Definition four_fields (line : text) : Prop := (4 <= length (split line))%nat.

(** The same, decided. *)
Definition four_fieldsb (line : text) : bool := (4 <=? length (split line))%nat.

(** What the script writes for a line with four fields. *)
Definition transformed (tigs : list (list N)) (line : text) : text :=
  if contains (nth 3 (split line) []) tigs then recolour line else line.

(** ** Cutting at the occurrences *)

(** [sep.join(pieces)] *)
Definition join (sep : text) (pieces : list (list N)) : text :=
  match pieces with
  | [] => []
  | p :: ps => p ++ flat_map (fun q => sep ++ q) ps
  end.

(** ['vvlgrey'] does not occur in [s]. *)
Definition grey_free (s : text) : Prop := forall a b, s <> a ++ vvlgrey ++ b.

(** ** The spec's reading of the names *)

(** Following the spec's words, "that line's trailing newline is
    stripped": the line without its final newline, if it has one, and
    nothing else removed. *)
Fixpoint spec_strip_newline (l : text) : text :=
  match l with
  | [] => []
  | c :: l' =>
      match l' with
      | [] => if c =? nl then [] else [c]
      | _ => c :: spec_strip_newline l'
      end
  end.

(** ** Runs *)

(** The three files, all of which open. *)
Definition all_open (fin fin2 : text) : files :=
  {| asm_karyotype := Some fin;
     good_contigs_txt := Some fin2;
     asm_karyotype2_writable := true |}.

(** ** Sample files *)

Definition ex_line : text := str "chr - tig00000001 tig1 0 1000 vvlgrey" ++ [nl].
Definition ex_line2 : text := str "chr - tig00000002 tig2 0 2000 vvlgrey" ++ [nl].
Definition ex_short : text := str "chr - tig3" ++ [nl].
Definition ex_good : text := str "tig1" ++ [nl].
Definition ex_good_padded : text := str "tig1 " ++ [nl].
Definition ex_good_more : text := str "tig2" ++ [nl] ++ str "tig1" ++ [nl].
Definition ex_good_twice : text :=
  str "tig1" ++ [nl] ++ str "tig2" ++ [nl] ++ str "tig1" ++ [nl].

(** ** Names and fields *)

(** The name holds no white space. *)
Definition spaceless (name : text) : bool := negb (existsb isspace name).

(** The field made of a run of characters, if the run is not empty. *)
Definition field_of (w : text) : list (list N) :=
  match w with
  | [] => []
  | _ => [w]
  end.

(** ** More sample files *)

Definition ex_good_both : text := str "tig1" ++ [nl] ++ str "tig2" ++ [nl].
Definition ex_good_second : text := str "tig2" ++ [nl].
Definition ex_good_indented : text :=
  str " tig1" ++ [nl] ++ str "tig2" ++ [nl].

(** The names file is missing. *)
Definition ex_no_names : files :=
  {| asm_karyotype := Some ex_line;
     good_contigs_txt := None;
     asm_karyotype2_writable := true |}.

(** * Properties *)

(** ** Equality and membership *)

Lemma text_eqb_eq a b : text_eqb a b = true <-> a = b.
Proof.
  revert b; induction a as [|x a IH]; intros [|y b]; simpl;
    try (split; [discriminate|discriminate]); [tauto|].
  rewrite andb_true_iff, N.eqb_eq, IH.
  split; [intros [-> ->]; reflexivity | intros [= -> ->]; auto].
Qed.

Lemma contains_In x l : contains x l = true <-> In x l.
Proof.
  unfold contains. rewrite existsb_exists. split.
  - intros (y & Hy & E). apply text_eqb_eq in E. subst; assumption.
  - intros H. exists x. split; [assumption | apply text_eqb_eq; reflexivity].
Qed.

(** ** Prefixes *)

Lemma strip_prefix_Some p s r : strip_prefix p s = Some r <-> s = p ++ r.
Proof.
  revert s; induction p as [|x p IH]; intros s; simpl.
  - split; [intros [= ->] | intros ->]; reflexivity.
  - destruct s as [|y s]; [split; discriminate|].
    destruct (N.eqb_spec x y) as [->|N].
    + rewrite IH. split; [intros -> | intros [= ->]]; reflexivity.
    + split; [discriminate | intros [= E _]; congruence].
Qed.

Lemma strip_prefix_length p s r :
  strip_prefix p s = Some r -> length s = (length p + length r)%nat.
Proof. intros E. apply strip_prefix_Some in E. subst. apply length_app. Qed.

Lemma strip_prefix_app p r : strip_prefix p (p ++ r) = Some r.
Proof. apply strip_prefix_Some; reflexivity. Qed.

(** ** The scan of [replace] *)

Section Scan.
Variables (o : char) (old new : text).

Lemma replace_ne_nil : replace_ne o old new [] = [].
Proof. simp replace_ne. reflexivity. Qed.

Lemma replace_ne_cons c s :
  replace_ne o old new (c :: s) =
  match strip_prefix (o :: old) (c :: s) with
  | Some rest => new ++ replace_ne o old new rest
  | None => c :: replace_ne o old new s
  end.
Proof.
  simp replace_ne. unfold inspect.
  generalize (@eq_refl _ (strip_prefix (o :: old) (c :: s))).
  generalize (strip_prefix (o :: old) (c :: s)) at 2 4 5 as m.
  intros [rest|] E; reflexivity.
Qed.

Lemma replace_ne_hit s r :
  strip_prefix (o :: old) s = Some r ->
  replace_ne o old new s = new ++ replace_ne o old new r.
Proof.
  destruct s as [|c s]; [discriminate|].
  intros E. rewrite replace_ne_cons, E. reflexivity.
Qed.

Lemma replace_ne_miss c s :
  strip_prefix (o :: old) (c :: s) = None ->
  replace_ne o old new (c :: s) = c :: replace_ne o old new s.
Proof. intros E. rewrite replace_ne_cons, E. reflexivity. Qed.

(** Induction along the scan: a match at the head jumps over it. *)
Lemma scan_ind (P : list N -> Prop) :
  P [] ->
  (forall c s r, strip_prefix (o :: old) (c :: s) = Some r -> P r -> P (c :: s)) ->
  (forall c s, strip_prefix (o :: old) (c :: s) = None -> P s -> P (c :: s)) ->
  forall s : list N, P s.
Proof.
  intros Hnil Hhit Hmiss s.
  assert (G : forall n t, (length t <= n)%nat -> P t).
  { induction n as [|n IH]; intros [|c t] L; simpl in L; auto; try lia.
    destruct (strip_prefix (o :: old) (c :: t)) as [r|] eqn:E.
    - apply (Hhit c t r E). apply IH.
      apply strip_prefix_length in E. simpl in E. lia.
    - apply (Hmiss c t E). apply IH. lia. }
  apply (G (length s)). lia.
Qed.

(** Every character of the result comes from the input or from [new]. *)
Lemma replace_ne_In x s :
  In x (replace_ne o old new s) -> In x s \/ In x new.
Proof.
  induction s as [|c s r E IH|c s E IH] using scan_ind.
  - rewrite replace_ne_nil. tauto.
  - rewrite (replace_ne_hit _ _ E), in_app_iff.
    apply strip_prefix_Some in E. rewrite E.
    intros [H|H]; [tauto|].
    destruct (IH H) as [H'|H']; [|tauto].
    left. apply in_or_app. right. assumption.
  - rewrite (replace_ne_miss _ _ E). simpl. tauto.
Qed.

Lemma replace_ne_eq_nil s :
  new <> [] -> replace_ne o old new s = [] -> s = [].
Proof.
  intros Hnew. destruct s as [|c s]; [reflexivity|].
  rewrite replace_ne_cons.
  destruct (strip_prefix _ _); [|discriminate].
  destruct new; [congruence|discriminate].
Qed.

(** A prefix that fits before a character it does not contain. *)
Lemma strip_prefix_before p a c b :
  ~ In c p -> strip_prefix p a = None -> strip_prefix p (a ++ c :: b) = None.
Proof.
  revert a; induction p as [|y p IH]; intros a Hc; simpl; [discriminate|].
  destruct a as [|x a]; simpl.
  - intros _. destruct (N.eqb_spec y c) as [->|_]; [|reflexivity].
    exfalso. apply Hc. left. reflexivity.
  - destruct (y =? x); [|reflexivity].
    apply IH. intros H. apply Hc. right. assumption.
Qed.

(** The scan works piecewise between characters that occur neither in
    the pattern nor, therefore, in any match. *)
Lemma replace_ne_sep a c b :
  ~ In c (o :: old) ->
  replace_ne o old new (a ++ c :: b) =
  replace_ne o old new a ++ c :: replace_ne o old new b.
Proof.
  intros Hc.
  induction a as [|x a r E IH|x a E IH] using scan_ind.
  - rewrite replace_ne_nil. simpl. apply replace_ne_miss.
    simpl. destruct (N.eqb_spec o c) as [->|_]; [|reflexivity].
    exfalso. apply Hc. left. reflexivity.
  - rewrite (replace_ne_hit _ _ E).
    apply strip_prefix_Some in E.
    rewrite (replace_ne_hit ((x :: a) ++ c :: b) (r ++ c :: b)).
    + rewrite IH, app_assoc. reflexivity.
    + apply strip_prefix_Some. rewrite E, <- app_assoc. reflexivity.
  - rewrite (replace_ne_miss _ _ E). simpl.
    rewrite replace_ne_miss, IH; [reflexivity|].
    apply (strip_prefix_before (o :: old) (x :: a) c b Hc E).
Qed.

End Scan.

(** ** White space: [rstrip] and [split] *)

Lemma rstrip_blank w : blank w = true -> rstrip w = [].
Proof.
  induction w as [|c w IH]; simpl; [reflexivity|].
  rewrite andb_true_iff. intros [Hc Hw].
  rewrite (IH Hw), Hc. reflexivity.
Qed.

Lemma rstrip_cons_ne c s : rstrip s <> [] -> rstrip (c :: s) = c :: rstrip s.
Proof. simpl. destruct (rstrip s); [congruence|reflexivity]. Qed.

(** [rstrip] removes a blank suffix, and nothing else. *)
Lemma rstrip_suffix s : exists w, s = rstrip s ++ w /\ blank w = true.
Proof.
  induction s as [|c s (w & E & B)]; simpl.
  - exists []. split; reflexivity.
  - destruct (rstrip s) as [|x r] eqn:R.
    + simpl in E. subst w.
      destruct (isspace c) eqn:Hc.
      * exists (c :: s). simpl. rewrite Hc, B. split; reflexivity.
      * exists s. split; [reflexivity|assumption].
    + exists w. split; [|assumption].
      simpl. f_equal. exact E.
Qed.

Lemma rstrip_stripped s : stripped (rstrip s).
Proof.
  induction s as [|c s IH]; intros a x E.
  - destruct a; discriminate.
  - simpl in E. destruct (rstrip s) as [|y r] eqn:R.
    + destruct (isspace c) eqn:Hc; [destruct a; discriminate|].
      destruct a as [|a0 a]; [injection E as <-; assumption|].
      injection E as _ E. destruct a; discriminate.
    + destruct a as [|a0 a]; [discriminate|].
      injection E as _ E. apply (IH a x). exact E.
Qed.

Lemma rstrip_app_blank a w :
  stripped a -> blank w = true -> rstrip (a ++ w) = a.
Proof.
  intros Ha Hw. induction a as [|c a IH]; simpl.
  - apply rstrip_blank; assumption.
  - rewrite IH.
    + destruct a as [|x a']; [|reflexivity].
      rewrite (Ha [] c eq_refl). reflexivity.
    + intros b x E. apply (Ha (c :: b) x). rewrite E. reflexivity.
Qed.

Lemma split_from_blank cur w :
  blank w = true -> split_from cur w = flush cur.
Proof.
  revert cur; induction w as [|c w IH]; intros cur; simpl; [reflexivity|].
  rewrite andb_true_iff. intros [-> Hw].
  rewrite (IH [] Hw). simpl. apply app_nil_r.
Qed.

Lemma split_from_app_blank cur s w :
  blank w = true -> split_from cur (s ++ w) = split_from cur s.
Proof.
  intros Hw. revert cur; induction s as [|c s IH]; intros cur; simpl.
  - apply split_from_blank; assumption.
  - destruct (isspace c); rewrite IH; reflexivity.
Qed.

(** Stripping before splitting changes nothing: the fields of the
    script are the fields of the line. *)
Lemma parts_split line : parts line = split line.
Proof.
  unfold parts, split.
  destruct (rstrip_suffix line) as (w & E & B).
  rewrite E at 2. symmetry. apply split_from_app_blank; assumption.
Qed.

Lemma length_flush cur : length (flush cur) = if nonempty cur then 1%nat else 0%nat.
Proof. destruct cur; reflexivity. Qed.

Lemma length_split_from cur s :
  length (split_from cur s) = count_fields (nonempty cur) s.
Proof.
  revert cur; induction s as [|c s IH]; intros cur; simpl.
  - apply length_flush.
  - destruct (isspace c).
    + rewrite length_app, length_flush, IH. reflexivity.
    + rewrite IH. reflexivity.
Qed.

Lemma length_split s : length (split s) = count_fields false s.
Proof. apply length_split_from. Qed.

(** A run of characters that are not white space opens a field, or
    carries on the open one. *)
Lemma count_fields_word b w r :
  w <> [] -> forallb (fun c => negb (isspace c)) w = true ->
  count_fields b (w ++ r) = count_fields true r.
Proof.
  revert b; induction w as [|c w IH]; intros b Hne Hw; [congruence|].
  simpl in Hw. apply andb_true_iff in Hw as [Hc Hw].
  apply negb_true_iff in Hc. simpl. rewrite Hc.
  destruct w as [|x w]; [reflexivity|].
  apply IH; [discriminate|assumption].
Qed.

Lemma flush_words cur :
  (forall c, In c cur -> isspace c = false) -> Forall word (flush cur).
Proof.
  intros Hcur. destruct cur as [|x cur]; simpl; constructor; [|constructor].
  split.
  - intros E. apply (f_equal (@length _)) in E.
    rewrite length_app in E. simpl in E. lia.
  - intros y Hy. apply Hcur. apply in_rev. exact Hy.
Qed.

Lemma split_from_words cur s :
  (forall c, In c cur -> isspace c = false) ->
  Forall word (split_from cur s).
Proof.
  revert cur; induction s as [|c s IH]; intros cur Hcur; simpl.
  - apply flush_words; assumption.
  - destruct (isspace c) eqn:Hc.
    + apply Forall_app. split.
      * apply flush_words; assumption.
      * apply IH. intros y [].
    + apply IH. intros y [<-|Hy]; [assumption|apply Hcur; assumption].
Qed.

Lemma split_words s : Forall word (split s).
Proof. apply split_from_words. intros c []. Qed.

(** ** Recolouring: ['vvlgrey'] to ['red'] *)

Lemma recolour_nil : recolour [] = [].
Proof. apply replace_ne_nil. Qed.

Lemma recolour_hit r : recolour (vvlgrey ++ r) = red ++ recolour r.
Proof.
  unfold recolour, replace, vvlgrey at 1 3.
  apply replace_ne_hit. apply (strip_prefix_app vvlgrey).
Qed.

Lemma recolour_miss c s :
  strip_prefix vvlgrey (c :: s) = None -> recolour (c :: s) = c :: recolour s.
Proof. apply replace_ne_miss. Qed.

(** Induction along the scan for ['vvlgrey']. *)
Lemma recolour_ind (P : list N -> Prop) :
  P [] ->
  (forall r, P r -> P (vvlgrey ++ r)) ->
  (forall c s, strip_prefix vvlgrey (c :: s) = None -> P s -> P (c :: s)) ->
  forall s : list N, P s.
Proof.
  intros Hnil Hhit Hmiss.
  apply (scan_ind 118 (tl vvlgrey)); [assumption| |assumption].
  intros c s r E Hr. apply (strip_prefix_Some vvlgrey) in E.
  rewrite E. apply Hhit. assumption.
Qed.

Lemma length_recolour s : (length (recolour s) <= length s)%nat.
Proof.
  induction s as [|r IH|c s E IH] using recolour_ind.
  - rewrite recolour_nil. apply le_n.
  - rewrite recolour_hit, !length_app. simpl. lia.
  - rewrite (recolour_miss _ _ E). simpl. lia.
Qed.

Lemma recolour_eq_nil s : recolour s = [] -> s = [].
Proof. apply replace_ne_eq_nil. discriminate. Qed.

(** A character that is not a letter of ['vvlgrey'] splits the scan. *)
Lemma recolour_sep a c b :
  ~ In c vvlgrey -> recolour (a ++ c :: b) = recolour a ++ c :: recolour b.
Proof. apply replace_ne_sep. Qed.

Lemma recolour_In x s : In x (recolour s) -> In x s \/ In x red.
Proof. apply replace_ne_In. Qed.

Lemma isspace_vvlgrey c : In c vvlgrey -> isspace c = false.
Proof.
  simpl. intros H. repeat (destruct H as [<-|H]; [reflexivity|]). destruct H.
Qed.

Lemma isspace_red c : In c red -> isspace c = false.
Proof.
  simpl. intros H. repeat (destruct H as [<-|H]; [reflexivity|]). destruct H.
Qed.

(** Recolouring keeps the fields apart: it neither joins nor cuts one. *)
Lemma count_fields_recolour b s :
  count_fields b (recolour s) = count_fields b s.
Proof.
  revert b. induction s as [|r IH|c s E IH] using recolour_ind; intros b.
  - rewrite recolour_nil. reflexivity.
  - rewrite recolour_hit.
    rewrite !count_fields_word; try discriminate; try reflexivity.
    apply IH.
  - rewrite (recolour_miss _ _ E). simpl.
    destruct (isspace c); rewrite IH; reflexivity.
Qed.

Lemma tails_tl x u : In (x :: u) (tails vvlgrey) -> In u (tails vvlgrey).
Proof.
  simpl. intros H.
  repeat (destruct H as [H|H]; [injection H as <- <-; tauto|]).
  destruct H as [H|[]]. discriminate.
Qed.

(** What the result starts with: a suffix of ['vvlgrey'] at the head of
    the result was at the head of the input. *)
Lemma strip_tail_recolour u s :
  In u (tails vvlgrey) ->
  strip_prefix u s = None -> strip_prefix u (recolour s) = None.
Proof.
  revert u. induction s as [|r IH|c s E IH] using recolour_ind; intros u Hu.
  - rewrite recolour_nil. tauto.
  - rewrite recolour_hit. intros H.
    simpl in Hu.
    repeat (destruct Hu as [<-|Hu]; [reflexivity || discriminate|]).
    destruct Hu.
  - rewrite (recolour_miss _ _ E).
    destruct u as [|x u]; simpl; [discriminate|].
    destruct (x =? c); [|reflexivity].
    apply IH. apply (tails_tl x). assumption.
Qed.

(** The result never starts with ['vvlgrey']. *)
Lemma strip_vvlgrey_recolour s : strip_prefix vvlgrey (recolour s) = None.
Proof.
  destruct (strip_prefix vvlgrey s) as [r|] eqn:E.
  - apply strip_prefix_Some in E. rewrite E, recolour_hit. reflexivity.
  - apply strip_tail_recolour; [left; reflexivity | assumption].
Qed.

(** Nor does ['vvlgrey'] occur anywhere in it. *)
Lemma recolour_no_vvlgrey s a b : recolour s <> a ++ vvlgrey ++ b.
Proof.
  revert a. induction s as [|r IH|c s E IH] using recolour_ind; intros a H.
  - rewrite recolour_nil in H. destruct a; discriminate.
  - rewrite recolour_hit in H.
    destruct a as [|x [|y [|z a]]]; try discriminate.
    injection H as _ _ _ H. apply (IH a). assumption.
  - destruct a as [|x a].
    + pose proof (strip_vvlgrey_recolour (c :: s)) as N.
      rewrite H in N. change (strip_prefix vvlgrey (vvlgrey ++ b) = None) in N.
      rewrite (strip_prefix_app vvlgrey b) in N. discriminate.
    + rewrite (recolour_miss _ _ E) in H.
      injection H as _ H. apply (IH a). assumption.
Qed.

(** A string without ['vvlgrey'] is left as it is. *)
Lemma recolour_fixed s :
  (forall a b, s <> a ++ vvlgrey ++ b) -> recolour s = s.
Proof.
  induction s as [|r IH|c s E IH] using recolour_ind; intros H.
  - apply recolour_nil.
  - exfalso. apply (H [] r). reflexivity.
  - rewrite (recolour_miss _ _ E). f_equal. apply IH.
    intros a b ->. apply (H (c :: a) b). reflexivity.
Qed.

Lemma recolour_idem s : recolour (recolour s) = recolour s.
Proof. apply recolour_fixed. intros a b. apply recolour_no_vvlgrey. Qed.

(** ** Lines *)

Lemma terminated_cons c l : c <> nl -> terminated l -> terminated (c :: l).
Proof.
  intros Hc (b & -> & Hb). exists (c :: b). split; [reflexivity|].
  intros [H|H]; [congruence|tauto].
Qed.

Lemma unterminated_cons c l : c <> nl -> ~ In nl l -> unterminated (c :: l).
Proof.
  intros Hc Hl. split; [discriminate|].
  intros [H|H]; [congruence|tauto].
Qed.

Lemma readlines_lined s : lined (readlines s).
Proof.
  induction s as [|c s IH]; simpl; [constructor|].
  destruct (N.eqb_spec c nl) as [->|Hc].
  - apply lined_cons; [|assumption].
    exists []. split; [reflexivity|intros []].
  - destruct (readlines s) as [|l ls].
    + apply lined_last. apply unterminated_cons; [assumption|intros []].
    + inversion IH as [|l' [_ Hl]|l' ls' Hl Hls]; subst.
      * apply lined_last. apply unterminated_cons; assumption.
      * apply lined_cons; [|assumption].
        apply terminated_cons; assumption.
Qed.

Lemma readlines_unterminated l : unterminated l -> readlines l = [l].
Proof.
  intros [Hne Hnl]. induction l as [|c l IH]; [congruence|].
  simpl. destruct (N.eqb_spec c nl) as [->|Hc].
  - exfalso. apply Hnl. left. reflexivity.
  - destruct l as [|x l]; [reflexivity|].
    rewrite IH; [reflexivity|discriminate|].
    intros H. apply Hnl. right. assumption.
Qed.

Lemma readlines_terminated b rest :
  ~ In nl b -> readlines (b ++ nl :: rest) = (b ++ [nl]) :: readlines rest.
Proof.
  intros Hb. induction b as [|c b IH]; simpl; [reflexivity|].
  destruct (N.eqb_spec c nl) as [->|Hc].
  - exfalso. apply Hb. left. reflexivity.
  - rewrite IH; [reflexivity|].
    intros H. apply Hb. right. assumption.
Qed.

(** Reading back what was written line by line gives the lines. *)
Lemma readlines_contents ls : lined ls -> readlines (contents ls) = ls.
Proof.
  unfold contents. induction 1 as [|l Hl|l ls (b & -> & Hb) Hls IH]; simpl.
  - reflexivity.
  - rewrite app_nil_r. apply readlines_unterminated; assumption.
  - rewrite <- app_assoc. simpl.
    rewrite (readlines_terminated b _ Hb), IH. reflexivity.
Qed.

Lemma lined_map (f : list N -> list N) ls :
  (forall l, terminated l -> terminated (f l)) ->
  (forall l, unterminated l -> unterminated (f l)) ->
  lined ls -> lined (map f ls).
Proof.
  intros Ht Hu. induction 1; simpl; constructor; auto.
Qed.

Lemma not_nl_recolour s : ~ In nl s -> ~ In nl (recolour s).
Proof.
  intros Hs H. apply recolour_In in H as [H|H]; [tauto|].
  simpl in H. repeat (destruct H as [H|H]; [discriminate|]). destruct H.
Qed.

Lemma not_nl_vvlgrey : ~ In nl vvlgrey.
Proof.
  simpl. intros H. repeat (destruct H as [H|H]; [discriminate|]). destruct H.
Qed.

(** Recolouring keeps the newline of a line, and adds none. *)
Lemma terminated_recolour l : terminated l -> terminated (recolour l).
Proof.
  intros (b & -> & Hb). exists (recolour b). split.
  - rewrite (recolour_sep b nl [] not_nl_vvlgrey), recolour_nil. reflexivity.
  - apply not_nl_recolour. assumption.
Qed.

Lemma unterminated_recolour l : unterminated l -> unterminated (recolour l).
Proof.
  intros [Hne Hnl]. split.
  - intros E. apply Hne. apply recolour_eq_nil. assumption.
  - apply not_nl_recolour. assumption.
Qed.

(** ** One line *)

Lemma getitem_nth {A : Type} (l : list A) i d :
  (i < length l)%nat -> getitem l i = Ok (nth i l d).
Proof.
  intros H. unfold getitem. rewrite (nth_error_nth' l d H). reflexivity.
Qed.

Lemma getitem_short {A : Type} (l : list A) i :
  (length l <= i)%nat -> getitem l i = Raise IndexError.
Proof.
  intros H. unfold getitem.
  destruct (nth_error l i) eqn:E; [|reflexivity].
  apply nth_error_None in H. congruence.
Qed.

Lemma is_good_four tigs line :
  four_fields line ->
  is_good tigs line = Ok (contains (nth 3 (split line) []) tigs).
Proof.
  intros H. unfold is_good. rewrite parts_split.
  rewrite (getitem_nth _ 3 []); [reflexivity | exact H].
Qed.

Lemma is_good_short tigs line :
  ~ four_fields line -> is_good tigs line = Raise IndexError.
Proof.
  intros H. unfold is_good. rewrite parts_split.
  rewrite getitem_short; [reflexivity | unfold four_fields in H; lia].
Qed.

Lemma body_four tigs line :
  four_fields line -> body tigs line = Ok (transformed tigs line).
Proof.
  intros H. unfold body, transformed. rewrite (is_good_four _ _ H).
  destruct (contains _ _); reflexivity.
Qed.

Lemma body_short tigs line :
  ~ four_fields line -> body tigs line = Raise IndexError.
Proof. intros H. unfold body. rewrite (is_good_short _ _ H). reflexivity. Qed.

Lemma transformed_cases tigs line :
  transformed tigs line = line \/ transformed tigs line = recolour line.
Proof. unfold transformed. destruct (contains _ _); auto. Qed.

Lemma terminated_transformed tigs l : terminated l -> terminated (transformed tigs l).
Proof.
  intros H. unfold transformed.
  destruct (contains _ _); [apply terminated_recolour|]; assumption.
Qed.

Lemma unterminated_transformed tigs l :
  unterminated l -> unterminated (transformed tigs l).
Proof.
  intros H. unfold transformed.
  destruct (contains _ _); [apply unterminated_recolour|]; assumption.
Qed.

Lemma four_fields_recolour line : four_fields line -> four_fields (recolour line).
Proof.
  unfold four_fields. rewrite !length_split, count_fields_recolour. auto.
Qed.

(** ** The loop *)

Lemma for_lines_all tigs lines fout :
  Forall four_fields lines ->
  for_lines tigs lines fout = (fout ++ map (transformed tigs) lines, None).
Proof.
  intros H. revert fout. induction H as [|l ls Hl Hls IH]; intros fout; simpl.
  - rewrite app_nil_r. reflexivity.
  - rewrite (body_four _ _ Hl), IH, <- app_assoc. reflexivity.
Qed.

Lemma for_lines_stop tigs pre bad post fout :
  Forall four_fields pre -> ~ four_fields bad ->
  for_lines tigs (pre ++ bad :: post) fout =
  (fout ++ map (transformed tigs) pre, Some IndexError).
Proof.
  intros H Hbad. revert fout. induction H as [|l ls Hl Hls IH]; intros fout; simpl.
  - rewrite (body_short _ _ Hbad), app_nil_r. reflexivity.
  - rewrite (body_four _ _ Hl), IH, <- app_assoc. reflexivity.
Qed.

(** Some line is short: there is a first one. *)
Lemma first_short lines :
  Exists (fun l => ~ four_fields l) lines ->
  exists pre bad post,
    lines = pre ++ bad :: post /\ Forall four_fields pre /\ ~ four_fields bad.
Proof.
  induction lines as [|l ls IH]; intros H; [inversion H|].
  destruct (le_dec 4 (length (split l))) as [Hl|Hl].
  - inversion H as [? ? H'|? ? H']; subst; [contradiction|].
    destruct (IH H') as (pre & bad & post & -> & Hpre & Hbad).
    exists (l :: pre), bad, post. repeat split; auto.
  - exists [], l, ls. repeat split; auto.
Qed.

(** ** Cutting at the occurrences *)

Lemma grey_free_nil : grey_free [].
Proof. intros [|x a] b; discriminate. Qed.

Lemma grey_free_cons c p s :
  strip_prefix vvlgrey (c :: p ++ s) = None -> grey_free p -> grey_free (c :: p).
Proof.
  intros E Hp [|x a] b H.
  - change (c :: p ++ s) with ((c :: p) ++ s) in E.
    rewrite H in E. change ([] ++ vvlgrey ++ b) with (vvlgrey ++ b) in E.
    rewrite <- app_assoc in E.
    rewrite (strip_prefix_app vvlgrey (b ++ s)) in E. discriminate.
  - injection H as _ H. apply (Hp a b). assumption.
Qed.

(** The line is cut at occurrences of ['vvlgrey'] into pieces that hold
    none, and the result is the pieces joined by ['red']. *)
Lemma recolour_join s :
  exists p ps,
    s = join vvlgrey (p :: ps) /\ Forall grey_free (p :: ps) /\
    recolour s = join red (p :: ps).
Proof.
  induction s as [|r (p & ps & E & F & R)|c s E (p & ps & Es & F & R)]
    using recolour_ind.
  - exists [], []. split; [reflexivity|split; [|apply recolour_nil]].
    constructor; [apply grey_free_nil|constructor].
  - exists [], (p :: ps). split; [|split].
    + rewrite E. reflexivity.
    + constructor; [apply grey_free_nil|assumption].
    + rewrite recolour_hit, R. reflexivity.
  - exists (c :: p), ps. split; [|split].
    + rewrite Es. reflexivity.
    + inversion F as [|? ? Hp Hps]; subst. constructor; [|assumption].
      apply (grey_free_cons c p (flat_map (fun q => vvlgrey ++ q) ps)); assumption.
    + rewrite (recolour_miss _ _ E), R. reflexivity.
Qed.

(** ** The names *)

Lemma contains_ext x t1 t2 :
  (forall y, In y t1 <-> In y t2) -> contains x t1 = contains x t2.
Proof.
  intros H. destruct (contains x t2) eqn:E.
  - apply contains_In, H, contains_In. assumption.
  - destruct (contains x t1) eqn:E1; [|reflexivity].
    apply contains_In, H, contains_In in E1. congruence.
Qed.

Lemma contains_nonempty x tigs :
  x <> [] -> contains x tigs = contains x (filter nonempty tigs).
Proof.
  intros Hx. induction tigs as [|t tigs IH]; [reflexivity|].
  simpl. destruct t as [|c t]; simpl.
  - destruct x; [congruence|]. simpl. assumption.
  - rewrite IH. reflexivity.
Qed.

Lemma parts_words line : Forall word (parts line).
Proof. apply split_words. Qed.

Lemma getitem_In {A : Type} (l : list A) i x : getitem l i = Ok x -> In x l.
Proof.
  unfold getitem. destruct (nth_error l i) eqn:E; [|discriminate].
  intros [= <-]. apply (nth_error_In l i E).
Qed.

Lemma is_good_nonempty tigs line :
  is_good tigs line = is_good (filter nonempty tigs) line.
Proof.
  unfold is_good. destruct (getitem (parts line) 3) as [f|e] eqn:E; [|reflexivity].
  f_equal. apply contains_nonempty.
  pose proof (parts_words line) as W. rewrite Forall_forall in W.
  apply (W f). apply (getitem_In _ _ _ E).
Qed.

Lemma is_good_ext t1 t2 line :
  (forall y, In y t1 <-> In y t2) -> is_good t1 line = is_good t2 line.
Proof.
  intros H. unfold is_good. destruct (getitem (parts line) 3); [|reflexivity].
  f_equal. apply contains_ext. assumption.
Qed.

Lemma for_lines_is_good t1 t2 lines fout :
  (forall line, is_good t1 line = is_good t2 line) ->
  for_lines t1 lines fout = for_lines t2 lines fout.
Proof.
  intros H. revert fout. induction lines as [|l ls IH]; intros fout; simpl.
  - reflexivity.
  - unfold body. rewrite (H l).
    destruct (is_good t2 l) as [[|]|e]; try rewrite IH; reflexivity.
Qed.

Lemma Forall2_map_r {A B : Type} (R : A -> B -> Prop) (f : A -> B) l :
  Forall (fun a => R a (f a)) l -> Forall2 R l (map f l).
Proof. induction 1; simpl; constructor; assumption. Qed.

Lemma main_all fin fin2 :
  Forall four_fields (readlines fin) ->
  main (all_open fin fin2) =
  {| raised := None;
     asm_karyotype2 := Some (map (transformed (load_tigs fin2)) (readlines fin)) |}.
Proof.
  intros H. unfold main, all_open. simpl.
  rewrite (for_lines_all _ _ [] H). reflexivity.
Qed.

Lemma main_stop fin fin2 pre bad post :
  readlines fin = pre ++ bad :: post ->
  Forall four_fields pre -> ~ four_fields bad ->
  main (all_open fin fin2) =
  {| raised := Some IndexError;
     asm_karyotype2 := Some (map (transformed (load_tigs fin2)) pre) |}.
Proof.
  intros E Hpre Hbad. unfold main, all_open. simpl.
  rewrite E, (for_lines_stop _ _ _ _ [] Hpre Hbad). reflexivity.
Qed.

Lemma four_fields_transformed tigs line :
  four_fields line -> four_fields (transformed tigs line).
Proof.
  intros H. unfold transformed.
  destruct (contains _ _); [apply four_fields_recolour|]; assumption.
Qed.

Lemma transformed_recolour tigs line :
  transformed tigs (recolour line) = recolour line.
Proof.
  unfold transformed. destruct (contains _ _); [apply recolour_idem|reflexivity].
Qed.

Lemma is_good_Ok tigs line b : is_good tigs line = Ok b -> four_fields line.
Proof.
  intros H. destruct (le_dec 4 (length (split line))) as [F|F]; [exact F|].
  rewrite (is_good_short tigs line F) in H. discriminate.
Qed.

Lemma is_good_transformed tigs line :
  is_good tigs line = Ok true -> transformed tigs line = recolour line.
Proof.
  intros H. pose proof (body_four tigs line (is_good_Ok _ _ _ H)) as B.
  unfold body in B. rewrite H in B. injection B as <-. reflexivity.
Qed.

(** A recoloured line goes through a second run as it is. *)
Lemma body_recoloured_again tigs tigs' line :
  is_good tigs line = Ok true ->
  body tigs' (recolour line) = Ok (recolour line).
Proof.
  intros H.
  rewrite (body_four _ _ (four_fields_recolour _ (is_good_Ok _ _ _ H))).
  rewrite transformed_recolour. reflexivity.
Qed.

(** ** The newline at the end of a name *)

Lemma spec_strip_newline_cases l :
  l = spec_strip_newline l \/ l = spec_strip_newline l ++ [nl].
Proof.
  induction l as [|c l IH]; [left; reflexivity|].
  simpl. destruct l as [|x l].
  - destruct (N.eqb_spec c nl) as [->|_]; [right|left]; reflexivity.
  - destruct IH as [IH|IH]; [left|right]; simpl; f_equal; exact IH.
Qed.

Lemma word_stripped f : word f -> stripped f.
Proof.
  intros [_ H] a c ->. apply H. apply in_or_app. right. left. reflexivity.
Qed.

(** A field that is a line of the names file without its newline is
    one of the names. *)
Lemma is_good_newline_stripped_name fin2 line f l :
  nth_error (split line) 3 = Some f -> In l (readlines fin2) ->
  f = spec_strip_newline l ->
  is_good (load_tigs fin2) line = Ok true.
Proof.
  intros Hf Hl E.
  assert (W : stripped f).
  { apply word_stripped. pose proof (split_words line) as W.
    rewrite Forall_forall in W. apply W. apply (nth_error_In _ _ Hf). }
  unfold is_good, getitem. rewrite parts_split, Hf. f_equal.
  apply contains_In. unfold load_tigs. apply in_map_iff.
  exists l. split; [|assumption].
  destruct (spec_strip_newline_cases l) as [C|C]; rewrite C, <- E.
  - rewrite <- (app_nil_r f) at 1. apply rstrip_app_blank; [assumption|reflexivity].
  - apply rstrip_app_blank; [assumption|reflexivity].
Qed.

Lemma four_fieldsb_true line : four_fieldsb line = true -> four_fields line.
Proof. apply Nat.leb_le. Qed.

Lemma four_fieldsb_false line : four_fieldsb line = false -> ~ four_fields line.
Proof. unfold four_fields. intros H. apply Nat.leb_gt in H. lia. Qed.

Lemma forallb_four_fields lines :
  forallb four_fieldsb lines = true -> Forall four_fields lines.
Proof.
  rewrite forallb_forall, Forall_forall.
  intros H l Hl. apply four_fieldsb_true, H, Hl.
Qed.

Lemma existsb_short lines :
  existsb (fun l => negb (four_fieldsb l)) lines = true ->
  Exists (fun l => ~ four_fields l) lines.
Proof.
  rewrite existsb_exists, Exists_exists.
  intros (l & Hl & H). exists l. split; [assumption|].
  apply four_fieldsb_false, negb_true_iff, H.
Qed.

(** * The specification, sentence by sentence *)

(** C1. For a line with at least four fields, the script writes the line
    with every ['vvlgrey'] turned into ['red'] when field 3 is one of the
    names (the line cut at the occurrences of ['vvlgrey'] into pieces
    that hold none, and the pieces joined again by ['red'], so that
    every other character, the newline included, stays), and the line
    itself otherwise. *)
Theorem body_recolours_named_lines tigs line :
  four_fields line ->
  exists out,
    body tigs line = Ok out /\
    (In (nth 3 (split line) []) tigs ->
       out = replace vvlgrey red line /\
       exists p ps,
         line = join vvlgrey (p :: ps) /\ Forall grey_free (p :: ps) /\
         out = join red (p :: ps)) /\
    (~ In (nth 3 (split line) []) tigs -> out = line).
Proof.
  intros H. exists (transformed tigs line).
  split; [apply body_four; assumption|].
  unfold transformed.
  destruct (contains (nth 3 (split line) []) tigs) eqn:E; split.
  - intros _. split; [reflexivity|].
    destruct (recolour_join line) as (p & ps & E1 & F & E2).
    exists p, ps. auto.
  - intros N. exfalso. apply N. apply contains_In. assumption.
  - intros I. apply contains_In in I. congruence.
  - reflexivity.
Qed.

Lemma body_recolours_named_lines_witness :
  four_fields ex_line /\
  exists out,
    body [str "tig1"] ex_line = Ok out /\
    (In (nth 3 (split ex_line) []) [str "tig1"] ->
       out = replace vvlgrey red ex_line /\
       exists p ps,
         ex_line = join vvlgrey (p :: ps) /\ Forall grey_free (p :: ps) /\
         out = join red (p :: ps)) /\
    (~ In (nth 3 (split ex_line) []) [str "tig1"] -> out = ex_line).
Proof.
  assert (H : four_fields ex_line)
    by (apply four_fieldsb_true; vm_compute; reflexivity).
  split; [exact H | exact (body_recolours_named_lines [str "tig1"] ex_line H)].
Defined.

(** C2. When every line of the input has at least four fields, the run
    ends without an exception, one string is written for each input
    line, in the order of the input, each either the input line or the
    input line recoloured, and the output file read back has as many
    lines as the input: its lines are the strings written. *)
Theorem main_writes_line_for_line fin fin2 :
  Forall four_fields (readlines fin) ->
  exists fout,
    main (all_open fin fin2) =
      {| raised := None; asm_karyotype2 := Some fout |} /\
    length fout = length (readlines fin) /\
    Forall2 (fun line out =>
               body (load_tigs fin2) line = Ok out /\
               (out = line \/ out = recolour line))
            (readlines fin) fout /\
    readlines (contents fout) = fout /\
    length (readlines (contents fout)) = length (readlines fin).
Proof.
  intros H. exists (map (transformed (load_tigs fin2)) (readlines fin)).
  assert (R : readlines (contents (map (transformed (load_tigs fin2)) (readlines fin)))
              = map (transformed (load_tigs fin2)) (readlines fin)).
  { apply readlines_contents. apply lined_map.
    - apply terminated_transformed.
    - apply unterminated_transformed.
    - apply readlines_lined. }
  split; [apply main_all; assumption|].
  split; [apply length_map|].
  split; [|split; [exact R | rewrite R; apply length_map]].
  apply Forall2_map_r. apply Forall_impl with (2 := H).
  intros l Hl. split; [apply body_four; assumption | apply transformed_cases].
Qed.

Lemma main_writes_line_for_line_witness :
  Forall four_fields (readlines (ex_line ++ ex_line2)) /\
  exists fout,
    main (all_open (ex_line ++ ex_line2) ex_good) =
      {| raised := None; asm_karyotype2 := Some fout |} /\
    length fout = length (readlines (ex_line ++ ex_line2)) /\
    Forall2 (fun line out =>
               body (load_tigs ex_good) line = Ok out /\
               (out = line \/ out = recolour line))
            (readlines (ex_line ++ ex_line2)) fout /\
    readlines (contents fout) = fout /\
    length (readlines (contents fout)) = length (readlines (ex_line ++ ex_line2)).
Proof.
  assert (H : Forall four_fields (readlines (ex_line ++ ex_line2))).
  { apply forallb_four_fields. vm_compute. reflexivity. }
  split; [exact H | exact (main_writes_line_for_line (ex_line ++ ex_line2) ex_good H)].
Defined.

(** C3, as amended.  A line is recoloured exactly when its fourth field
    is one line of the names file without that line's trailing white
    space: the newline, and any other white space before it. *)
Theorem is_good_iff_rstripped_name fin2 line :
  is_good (load_tigs fin2) line = Ok true <->
  exists f l,
    nth_error (split line) 3 = Some f /\ In l (readlines fin2) /\ f = rstrip l.
Proof.
  unfold is_good, getitem. rewrite parts_split.
  destruct (nth_error (split line) 3) as [f|]; split.
  - intros [= H]. apply contains_In in H.
    unfold load_tigs in H. apply in_map_iff in H as (l & E & Hl).
    exists f, l. auto.
  - intros (f' & l & [= <-] & Hl & ->). f_equal.
    apply contains_In. unfold load_tigs. apply in_map. assumption.
  - discriminate.
  - intros (f & l & H & _). discriminate.
Qed.

(** C3 as stated fails: with the name written as ['tig1 '], the line of
    contig [tig1] is recoloured, although no line of the names file
    without its newline is ['tig1']. *)
Lemma is_good_not_newline_stripped :
  ~ (is_good (load_tigs ex_good_padded) ex_line = Ok true <->
     exists f l,
       nth_error (split ex_line) 3 = Some f /\ In l (readlines ex_good_padded) /\
       f = spec_strip_newline l).
Proof.
  intros [H _].
  assert (G : is_good (load_tigs ex_good_padded) ex_line = Ok true)
    by (vm_compute; reflexivity).
  destruct (H G) as (f & l & Hf & Hl & E).
  vm_compute in Hf. injection Hf as <-.
  vm_compute in Hl. destruct Hl as [<-|[]].
  vm_compute in E. discriminate.
Qed.

(** C4. The run ends in [OSError] when one of the three files cannot be
    opened, in [IndexError] when all three open and some line of the
    input has fewer than four fields, and without an exception, one
    string written for every line of the input, when all three open and
    every line has four fields. *)
Theorem main_raises fs :
  (asm_karyotype fs = None \/ good_contigs_txt fs = None \/
   asm_karyotype2_writable fs = false ->
   raised (main fs) = Some OSError) /\
  (forall fin fin2,
     fs = all_open fin fin2 ->
     (Exists (fun l => ~ four_fields l) (readlines fin) ->
      raised (main fs) = Some IndexError) /\
     (Forall four_fields (readlines fin) ->
      raised (main fs) = None /\
      exists fout,
        asm_karyotype2 (main fs) = Some fout /\
        length fout = length (readlines fin))).
Proof.
  split.
  - unfold main. intros [H|[H|H]].
    + rewrite H. reflexivity.
    + destruct (asm_karyotype fs); [|reflexivity].
      destruct (asm_karyotype2_writable fs); [|reflexivity].
      rewrite H. reflexivity.
    + destruct (asm_karyotype fs); [|reflexivity].
      rewrite H. reflexivity.
  - intros fin fin2 ->. split.
    + intros H. apply first_short in H as (pre & bad & post & E & Hpre & Hbad).
      rewrite (main_stop fin fin2 pre bad post E Hpre Hbad). reflexivity.
    + intros H. rewrite (main_all fin fin2 H). simpl.
      split; [reflexivity|]. eexists. split; [reflexivity|apply length_map].
Qed.

Lemma main_raises_witness :
  raised (main {| asm_karyotype := None;
                  good_contigs_txt := Some ex_good;
                  asm_karyotype2_writable := true |}) = Some OSError /\
  raised (main (all_open (ex_line ++ ex_short ++ ex_line2) ex_good))
    = Some IndexError /\
  raised (main (all_open (ex_line ++ ex_line2) ex_good)) = None.
Proof.
  split; [|split].
  - apply (proj1 (main_raises _)). left. reflexivity.
  - apply (proj1 (proj2 (main_raises _) (ex_line ++ ex_short ++ ex_line2) ex_good eq_refl)).
    apply existsb_short. vm_compute. reflexivity.
  - apply (proj2 (proj2 (main_raises _) (ex_line ++ ex_line2) ex_good eq_refl)).
    apply forallb_four_fields. vm_compute. reflexivity.
Defined.

(** C5. Recolouring twice is recolouring once; and when the script is
    run again over the output of a run, every line that the first run
    recoloured is written by the second as the first wrote it, whatever
    names the second run is given, those matching field 3 of the
    recoloured lines included. *)
Theorem second_run_keeps_recoloured fin fin2 fin2' :
  Forall four_fields (readlines fin) ->
  exists fout fout',
    main (all_open fin fin2) =
      {| raised := None; asm_karyotype2 := Some fout |} /\
    main (all_open (contents fout) fin2') =
      {| raised := None; asm_karyotype2 := Some fout' |} /\
    (forall i line,
       nth_error (readlines fin) i = Some line ->
       is_good (load_tigs fin2) line = Ok true ->
       nth_error fout i = Some (recolour line) /\
       nth_error fout' i = Some (recolour line) /\
       grey_free (recolour line)) /\
    (forall s, replace vvlgrey red (replace vvlgrey red s) = replace vvlgrey red s).
Proof.
  intros H.
  set (fout := map (transformed (load_tigs fin2)) (readlines fin)).
  assert (R : readlines (contents fout) = fout).
  { apply readlines_contents. apply lined_map.
    - apply terminated_transformed.
    - apply unterminated_transformed.
    - apply readlines_lined. }
  assert (F : Forall four_fields (readlines (contents fout))).
  { rewrite R. unfold fout. apply Forall_map.
    apply Forall_impl with (2 := H). intros l. apply four_fields_transformed. }
  exists fout, (map (transformed (load_tigs fin2')) fout).
  split; [apply main_all; assumption|].
  split; [rewrite (main_all _ fin2' F), R; reflexivity|].
  split; [|apply recolour_idem].
  intros i line Hi G. unfold fout.
  rewrite map_map, !nth_error_map, Hi. simpl.
  rewrite (is_good_transformed _ _ G), transformed_recolour.
  repeat split. intros a b. apply recolour_no_vvlgrey.
Qed.

Lemma second_run_keeps_recoloured_witness :
  exists fout fout',
    main (all_open (ex_line ++ ex_line2) ex_good) =
      {| raised := None; asm_karyotype2 := Some fout |} /\
    main (all_open (contents fout) (str "tig1" ++ [nl] ++ str "tig2")) =
      {| raised := None; asm_karyotype2 := Some fout' |} /\
    (forall i line,
       nth_error (readlines (ex_line ++ ex_line2)) i = Some line ->
       is_good (load_tigs ex_good) line = Ok true ->
       nth_error fout i = Some (recolour line) /\
       nth_error fout' i = Some (recolour line) /\
       grey_free (recolour line)) /\
    (forall s, replace vvlgrey red (replace vvlgrey red s) = replace vvlgrey red s).
Proof.
  apply (second_run_keeps_recoloured (ex_line ++ ex_line2) ex_good
           (str "tig1" ++ [nl] ++ str "tig2")).
  apply forallb_four_fields. vm_compute. reflexivity.
Defined.

(** C6, as amended.  The name stored for a line of the names file is
    that line without its trailing white space: the line is the name
    followed by white space only, and the name does not end in white
    space.  Membership is equality with one of the stored names. *)
Theorem load_tigs_rstripped fin2 :
  Forall2 (fun l name =>
             name = rstrip l /\ stripped name /\
             exists w, l = name ++ w /\ blank w = true)
          (readlines fin2) (load_tigs fin2) /\
  (forall x tigs, contains x tigs = true <-> In x tigs).
Proof.
  split; [|intros x tigs; apply contains_In].
  apply Forall2_map_r. apply Forall_forall. intros l _.
  split; [reflexivity|]. split; [apply rstrip_stripped | apply rstrip_suffix].
Qed.

(** C6 as stated fails: from the line ['tig1 '] the name stored is
    ['tig1'], without the space before the newline. *)
Lemma load_tigs_not_newline_stripped :
  load_tigs ex_good_padded <> map spec_strip_newline (readlines ex_good_padded).
Proof. vm_compute. discriminate. Qed.

(** C7. The string written for a line with at least four fields has as
    many fields as the line. *)
Theorem body_keeps_field_count tigs line :
  four_fields line ->
  exists out,
    body tigs line = Ok out /\ length (split out) = length (split line).
Proof.
  intros H. exists (transformed tigs line).
  split; [apply body_four; assumption|].
  unfold transformed. destruct (contains _ _); [|reflexivity].
  rewrite !length_split. apply count_fields_recolour.
Qed.

Lemma body_keeps_field_count_witness :
  four_fields ex_line /\
  exists out,
    body [str "tig1"] ex_line = Ok out /\
    length (split out) = length (split ex_line).
Proof.
  assert (H : four_fields ex_line)
    by (apply four_fieldsb_true; vm_compute; reflexivity).
  split; [exact H | exact (body_keeps_field_count [str "tig1"] ex_line H)].
Defined.

(** C8. When the first line with fewer than four fields is line [k] of
    the input, that line raises [IndexError], the run ends with it, and
    the output file holds what the script writes for the [k] lines
    before, in their order, and nothing else. *)
Theorem main_stops_at_first_short_line fin fin2 k bad :
  nth_error (readlines fin) k = Some bad ->
  Forall four_fields (firstn k (readlines fin)) -> ~ four_fields bad ->
  exists fout,
    body (load_tigs fin2) bad = Raise IndexError /\
    main (all_open fin fin2) =
      {| raised := Some IndexError; asm_karyotype2 := Some fout |} /\
    length fout = k /\
    Forall2 (fun line out => body (load_tigs fin2) line = Ok out)
            (firstn k (readlines fin)) fout.
Proof.
  intros Hk Hpre Hbad.
  destruct (nth_error_split _ _ Hk) as (pre & post & E & L).
  assert (P : firstn k (readlines fin) = pre).
  { rewrite E, <- L, firstn_app, Nat.sub_diag, firstn_all. apply app_nil_r. }
  rewrite P in *.
  exists (map (transformed (load_tigs fin2)) pre).
  split; [apply body_short; assumption|].
  split; [apply (main_stop fin fin2 pre bad post); assumption|].
  split; [rewrite length_map; assumption|].
  apply Forall2_map_r. apply Forall_impl with (2 := Hpre).
  intros l Hl. apply body_four. assumption.
Qed.

Lemma main_stops_at_first_short_line_witness :
  exists fout,
    body (load_tigs ex_good) ex_short = Raise IndexError /\
    main (all_open (ex_line ++ ex_short ++ ex_line2) ex_good) =
      {| raised := Some IndexError; asm_karyotype2 := Some fout |} /\
    length fout = 1%nat /\
    Forall2 (fun line out => body (load_tigs ex_good) line = Ok out)
            (firstn 1 (readlines (ex_line ++ ex_short ++ ex_line2))) fout.
Proof.
  apply (main_stops_at_first_short_line
           (ex_line ++ ex_short ++ ex_line2) ex_good 1 ex_short).
  - vm_compute. reflexivity.
  - apply forallb_four_fields. vm_compute. reflexivity.
  - apply four_fieldsb_false. vm_compute. reflexivity.
Defined.

(** C9. A blank line of the names file is stored as the empty string,
    and the empty string matches nothing: no field is empty, so the
    test of a line, and with it the whole loop, goes as it does with the
    empty names left out. *)
Theorem blank_name_never_matches :
  load_tigs [nl] = [[]] /\
  (forall line f, In f (parts line) -> f <> []) /\
  (forall line, is_good [[]] line <> Ok true) /\
  (forall tigs line, is_good tigs line = is_good (filter nonempty tigs) line) /\
  (forall tigs lines fout,
     for_lines tigs lines fout = for_lines (filter nonempty tigs) lines fout).
Proof.
  split; [reflexivity|]. split; [|split; [|split]].
  - intros line f H. pose proof (parts_words line) as W.
    rewrite Forall_forall in W. apply (W f H).
  - intros line. rewrite (is_good_nonempty [[]] line). simpl.
    unfold is_good. destruct (getitem _ _); discriminate.
  - apply is_good_nonempty.
  - intros tigs lines fout. apply for_lines_is_good.
    intros line. apply is_good_nonempty.
Qed.

Lemma blank_name_never_matches_witness :
  In (str "tig1") (parts ex_line) /\ str "tig1" <> [].
Proof.
  assert (H : In (str "tig1") (parts ex_line)) by (vm_compute; tauto).
  split; [exact H|].
  exact (proj1 (proj2 blank_name_never_matches) ex_line (str "tig1") H).
Defined.

(** C10. Two names files whose lines, without their trailing white
    space, are the same names, in whatever order and however often,
    give the same run: the same strings written, the same outcome. *)
Theorem main_depends_on_name_set fin a b w :
  (forall x, In x (load_tigs a) <-> In x (load_tigs b)) ->
  main {| asm_karyotype := fin; good_contigs_txt := Some a;
          asm_karyotype2_writable := w |} =
  main {| asm_karyotype := fin; good_contigs_txt := Some b;
          asm_karyotype2_writable := w |}.
Proof.
  intros H. unfold main. simpl.
  destruct fin as [fin|]; [|reflexivity].
  destruct w; [|reflexivity].
  rewrite (for_lines_is_good (load_tigs a) (load_tigs b)); [reflexivity|].
  intros line. apply is_good_ext. assumption.
Qed.

Lemma main_depends_on_name_set_witness :
  main {| asm_karyotype := Some (ex_line ++ ex_line2);
          good_contigs_txt := Some ex_good_more;
          asm_karyotype2_writable := true |} =
  main {| asm_karyotype := Some (ex_line ++ ex_line2);
          good_contigs_txt := Some ex_good_twice;
          asm_karyotype2_writable := true |}.
Proof.
  apply (main_depends_on_name_set (Some (ex_line ++ ex_line2))
           ex_good_more ex_good_twice true).
  intros x. vm_compute. tauto.
Defined.

(** * Further properties of the script *)

(** ** Fields, run by run *)

Lemma split_from_word w cur s :
  (forall c, In c w -> isspace c = false) ->
  split_from cur (w ++ s) = split_from (rev w ++ cur) s.
Proof.
  revert cur. induction w as [|x w IH]; intros cur Hw; [reflexivity|].
  simpl. rewrite (Hw x (or_introl eq_refl)).
  rewrite IH, <- app_assoc; [reflexivity|].
  intros c Hc. apply Hw. right. assumption.
Qed.

Lemma flush_rev w : flush (rev w) = field_of w.
Proof.
  destruct w as [|x w]; [reflexivity|].
  unfold flush. destruct (rev (x :: w)) as [|y r] eqn:E.
  - apply (f_equal (@length _)) in E. rewrite length_rev in E. discriminate.
  - rewrite <- E, rev_involutive. reflexivity.
Qed.

Lemma split_word w :
  (forall c, In c w -> isspace c = false) -> split w = field_of w.
Proof.
  intros Hw. unfold split. rewrite <- (app_nil_r w) at 1.
  rewrite (split_from_word w [] [] Hw), app_nil_r. apply flush_rev.
Qed.

Lemma split_word_sep w c r :
  (forall x, In x w -> isspace x = false) -> isspace c = true ->
  split (w ++ c :: r) = field_of w ++ split r.
Proof.
  intros Hw Hc. unfold split.
  rewrite (split_from_word w [] (c :: r) Hw), app_nil_r.
  simpl. rewrite Hc, flush_rev. reflexivity.
Qed.

Lemma split_blank_front w s : blank w = true -> split (w ++ s) = split s.
Proof.
  unfold split. induction w as [|c w IH]; simpl; [reflexivity|].
  rewrite andb_true_iff. intros [-> Hw]. apply IH. assumption.
Qed.

(** A string holds no white space, or has a first white space. *)
Lemma first_space s :
  (forall c, In c s -> isspace c = false) \/
  exists w c r,
    s = w ++ c :: r /\ (forall x, In x w -> isspace x = false) /\
    isspace c = true.
Proof.
  induction s as [|x s IH].
  - left. intros c [].
  - destruct (isspace x) eqn:Hx.
    + right. exists [], x, s. split; [reflexivity|]. split; [intros c []|assumption].
    + destruct IH as [IH|(w & c & r & -> & Hw & Hc)].
      * left. intros c [<-|Hc]; [assumption|apply IH; assumption].
      * right. exists (x :: w), c, r. split; [reflexivity|].
        split; [|assumption].
        intros y [<-|Hy]; [assumption|apply Hw; assumption].
Qed.

Lemma spaceless_recolour w :
  (forall c, In c w -> isspace c = false) ->
  forall c, In c (recolour w) -> isspace c = false.
Proof.
  intros Hw c Hc. apply recolour_In in Hc as [Hc|Hc].
  - apply Hw. assumption.
  - apply isspace_red. assumption.
Qed.

Lemma field_of_recolour w : field_of (recolour w) = map recolour (field_of w).
Proof.
  destruct w as [|x w]; [rewrite recolour_nil; reflexivity|].
  simpl. destruct (recolour (x :: w)) eqn:E; [|reflexivity].
  apply recolour_eq_nil in E. discriminate.
Qed.

Lemma space_not_in_vvlgrey c : isspace c = true -> ~ In c vvlgrey.
Proof. intros Hc H. apply isspace_vvlgrey in H. congruence. Qed.

(** The fields of the recoloured line are the recoloured fields. *)
Lemma split_recolour s : split (recolour s) = map recolour (split s).
Proof.
  assert (G : forall n t, (length t < n)%nat ->
                          split (recolour t) = map recolour (split t)).
  { induction n as [|n IH]; intros t L; [lia|].
    destruct (first_space t) as [Ht|(w & c & r & -> & Hw & Hc)].
    - rewrite (split_word t Ht), (split_word _ (spaceless_recolour t Ht)).
      apply field_of_recolour.
    - rewrite (recolour_sep w c r (space_not_in_vvlgrey c Hc)).
      rewrite (split_word_sep _ c _ (spaceless_recolour w Hw) Hc).
      rewrite (split_word_sep w c r Hw Hc), map_app, field_of_recolour.
      f_equal. apply IH. rewrite length_app in L. simpl in L. lia. }
  apply (G (S (length s))). lia.
Qed.

(** ** What a line becomes *)

Lemma body_Ok tigs line out :
  body tigs line = Ok out -> four_fields line /\ out = transformed tigs line.
Proof.
  intros H. destruct (le_dec 4 (length (split line))) as [F|F].
  - split; [exact F|]. rewrite (body_four tigs line F) in H. congruence.
  - rewrite (body_short tigs line F) in H. discriminate.
Qed.

Lemma contains_iff x t1 t2 :
  (In x t1 <-> In x t2) -> contains x t1 = contains x t2.
Proof.
  intros H. destruct (contains x t2) eqn:E.
  - apply contains_In, H, contains_In. assumption.
  - destruct (contains x t1) eqn:E1; [|reflexivity].
    apply contains_In, H, contains_In in E1. congruence.
Qed.




(** ** The text of the files *)

Lemma concat_readlines s : concat (readlines s) = s.
Proof.
  induction s as [|c s IH]; simpl; [reflexivity|].
  destruct (c =? nl); [simpl; rewrite IH; reflexivity|].
  destruct (readlines s) as [|l ls]; simpl in *; rewrite <- IH; reflexivity.
Qed.

(** Recolouring line by line is recolouring the text. *)
Lemma recolour_concat ls :
  lined ls -> concat (map recolour ls) = recolour (concat ls).
Proof.
  induction 1 as [|l Hl|l ls (b & -> & Hb) Hls IH]; simpl.
  - rewrite recolour_nil. reflexivity.
  - rewrite !app_nil_r. reflexivity.
  - rewrite IH, <- app_assoc. simpl.
    rewrite !(recolour_sep b nl _ not_nl_vvlgrey), recolour_nil, <- app_assoc.
    reflexivity.
Qed.


(** ** How a run ends *)

Lemma lines_four_or_short lines :
  Forall four_fields lines \/ Exists (fun l => ~ four_fields l) lines.
Proof.
  induction lines as [|l ls [IH|IH]].
  - left. constructor.
  - destruct (le_dec 4 (length (split l))) as [F|F].
    + left. constructor; assumption.
    + right. apply Exists_cons_hd. exact F.
  - right. apply Exists_cons_tl. assumption.
Qed.

Lemma four_not_short lines :
  Forall four_fields lines -> ~ Exists (fun l => ~ four_fields l) lines.
Proof.
  intros F E. apply Exists_exists in E as (l & Hl & N).
  rewrite Forall_forall in F. apply N, F, Hl.
Qed.

Lemma raised_short fin fin2 :
  Exists (fun l => ~ four_fields l) (readlines fin) ->
  raised (main (all_open fin fin2)) = Some IndexError.
Proof.
  intros H. apply first_short in H as (pre & bad & post & E & Hpre & Hbad).
  rewrite (main_stop fin fin2 pre bad post E Hpre Hbad). reflexivity.
Qed.

Lemma raised_four fin fin2 :
  Forall four_fields (readlines fin) ->
  raised (main (all_open fin fin2)) = None.
Proof. intros H. rewrite (main_all fin fin2 H). reflexivity. Qed.

Lemma blank_short w : blank w = true -> ~ four_fields w.
Proof.
  intros H. unfold four_fields, split.
  rewrite (split_from_blank [] w H). simpl. lia.
Qed.

Lemma short_grey_free s : (length s < 7)%nat -> grey_free s.
Proof.
  intros L a b E. apply (f_equal (@length _)) in E.
  rewrite !length_app in E. simpl in E. lia.
Qed.


Lemma word_spaceless f : word f -> spaceless f = true.
Proof.
  intros [_ H]. unfold spaceless. apply negb_true_iff.
  destruct (existsb isspace f) eqn:E; [|reflexivity].
  apply existsb_exists in E as (c & Hc & S). rewrite (H c Hc) in S. discriminate.
Qed.

Lemma is_good_spaceless t1 t2 line :
  (forall x, spaceless x = true -> (In x t1 <-> In x t2)) ->
  is_good t1 line = is_good t2 line.
Proof.
  intros H. unfold is_good.
  destruct (getitem (parts line) 3) as [f|e] eqn:E; [|reflexivity].
  f_equal. apply contains_iff, H, word_spaceless.
  pose proof (parts_words line) as W. rewrite Forall_forall in W.
  apply W. apply (getitem_In _ _ _ E).
Qed.

(** * Further properties, one by one *)



(** X2. Whatever the names, a field of the line that holds no
    ['vvlgrey'] is written as it is, at the same place: the contig name
    in field 3, for one. *)
Theorem body_keeps_grey_free_fields tigs line out i :
  body tigs line = Ok out ->
  grey_free (nth i (split line) []) ->
  nth i (split out) [] = nth i (split line) [].
Proof.
  intros B G. apply body_Ok in B as [_ ->].
  destruct (transformed_cases tigs line) as [-> | ->]; [reflexivity|].
  rewrite split_recolour.
  rewrite <- recolour_nil at 1. rewrite map_nth.
  apply recolour_fixed. assumption.
Qed.

Lemma body_keeps_grey_free_fields_witness :
  nth 3 (split (recolour ex_line)) [] = nth 3 (split ex_line) [].
Proof.
  apply (body_keeps_grey_free_fields [str "tig1"] ex_line (recolour ex_line) 3).
  - vm_compute. reflexivity.
  - apply short_grey_free. vm_compute. lia.
Defined.

(** X3. White space before and after a line does not count: the fields
    that the script takes from the line, and with them the test of the
    line, are those of the line without it.  The [rstrip()] before
    [split()] changes nothing. *)
Theorem parts_ignores_outer_space w1 line w2 :
  blank w1 = true -> blank w2 = true ->
  parts (w1 ++ line ++ w2) = split line /\
  forall tigs, is_good tigs (w1 ++ line ++ w2) = is_good tigs line.
Proof.
  intros H1 H2.
  assert (P : parts (w1 ++ line ++ w2) = split line).
  { rewrite parts_split, (split_blank_front w1 _ H1).
    apply split_from_app_blank. assumption. }
  split; [exact P|].
  intros tigs. unfold is_good. rewrite P, parts_split. reflexivity.
Qed.

Lemma parts_ignores_outer_space_witness :
  parts (str "  " ++ str "chr - tig00000001 tig1" ++ [32; nl])
    = split (str "chr - tig00000001 tig1") /\
  forall tigs,
    is_good tigs (str "  " ++ str "chr - tig00000001 tig1" ++ [32; nl])
    = is_good tigs (str "chr - tig00000001 tig1").
Proof.
  apply (parts_ignores_outer_space (str "  ") (str "chr - tig00000001 tig1") [32; nl]).
  - vm_compute. reflexivity.
  - vm_compute. reflexivity.
Defined.

(** X4. A line of white space only, an empty line at the end of the
    input for one, has no field: the run ends in [IndexError]. *)
Theorem blank_line_raises fin fin2 w :
  In w (readlines fin) -> blank w = true ->
  raised (main (all_open fin fin2)) = Some IndexError.
Proof.
  intros Hw B. apply raised_short. apply Exists_exists.
  exists w. split; [assumption | apply blank_short; assumption].
Qed.

Lemma blank_line_raises_witness :
  raised (main (all_open (ex_line ++ [nl]) ex_good)) = Some IndexError.
Proof.
  apply (blank_line_raises (ex_line ++ [nl]) ex_good [nl]).
  - vm_compute. right. left. reflexivity.
  - vm_compute. reflexivity.
Defined.

(** X5. How a run ends tells what it met: [OSError] exactly when one of
    the three files does not open, [IndexError] exactly when all open
    and some line of the input has fewer than four fields, and no
    exception exactly when all open and every line has four fields. *)
Theorem main_raised_iff fs :
  (raised (main fs) = Some OSError <->
   asm_karyotype fs = None \/ good_contigs_txt fs = None \/
   asm_karyotype2_writable fs = false) /\
  (raised (main fs) = Some IndexError <->
   exists fin fin2,
     fs = all_open fin fin2 /\
     Exists (fun l => ~ four_fields l) (readlines fin)) /\
  (raised (main fs) = None <->
   exists fin fin2,
     fs = all_open fin fin2 /\ Forall four_fields (readlines fin)).
Proof.
  destruct fs as [[fin|] [fin2|] [|]];
    try (split; [|split]; split;
         [ intros _; simpl; tauto
         | intros _; reflexivity
         | discriminate
         | intros (f & f2 & E & _); discriminate
         | discriminate
         | intros (f & f2 & E & _); discriminate ]).
  change {| asm_karyotype := Some fin; good_contigs_txt := Some fin2;
            asm_karyotype2_writable := true |} with (all_open fin fin2).
  destruct (lines_four_or_short (readlines fin)) as [F|S].
  - rewrite (raised_four fin fin2 F). split; [|split]; split.
    + discriminate.
    + simpl. intros [H|[H|H]]; discriminate.
    + discriminate.
    + intros (f & f2 & [= <- <-] & S). destruct (four_not_short _ F S).
    + intros _. exists fin, fin2. split; [reflexivity|assumption].
    + reflexivity.
  - rewrite (raised_short fin fin2 S). split; [|split]; split.
    + discriminate.
    + simpl. intros [H|[H|H]]; discriminate.
    + intros _. exists fin, fin2. split; [reflexivity|assumption].
    + reflexivity.
    + discriminate.
    + intros (f & f2 & [= <- <-] & F). destruct (four_not_short _ F S).
Qed.

(** X6. A run that ends in [OSError] wrote nothing.  Either the output
    file was not opened, because it or the input does not open, or it
    was opened, and so emptied, before the names file failed to open. *)
Theorem oserror_writes_nothing fs :
  raised (main fs) = Some OSError ->
  (asm_karyotype2 (main fs) = None /\
   (asm_karyotype fs = None \/ asm_karyotype2_writable fs = false)) \/
  (asm_karyotype2 (main fs) = Some [] /\ good_contigs_txt fs = None).
Proof.
  destruct fs as [[fin|] [fin2|] [|]]; simpl; intros H; auto.
  exfalso. revert H.
  change (raised (main (all_open fin fin2)) <> Some OSError).
  destruct (lines_four_or_short (readlines fin)) as [F|S].
  - rewrite (raised_four fin fin2 F). discriminate.
  - rewrite (raised_short fin fin2 S). discriminate.
Qed.

Lemma oserror_writes_nothing_witness :
  asm_karyotype2 (main ex_no_names) = Some [] /\
  good_contigs_txt ex_no_names = None.
Proof.
  destruct (oserror_writes_nothing ex_no_names eq_refl) as [[H _]|H];
    [discriminate H | exact H].
Defined.



(** X8. When every line of the input has its field 3 among the names,
    the output file is the text of the input file with every
    ['vvlgrey'] turned into ['red']: recolouring line by line is
    recolouring the whole text. *)
Theorem main_recolours_whole_text fin fin2 :
  Forall four_fields (readlines fin) ->
  (forall line, In line (readlines fin) ->
                In (nth 3 (split line) []) (load_tigs fin2)) ->
  exists fout,
    main (all_open fin fin2) =
      {| raised := None; asm_karyotype2 := Some fout |} /\
    contents fout = replace vvlgrey red fin.
Proof.
  intros F H. exists (map (transformed (load_tigs fin2)) (readlines fin)).
  split; [apply main_all; assumption|].
  unfold contents.
  rewrite (map_ext_in (transformed (load_tigs fin2)) recolour).
  - rewrite (recolour_concat _ (readlines_lined fin)), concat_readlines.
    reflexivity.
  - intros line Hl. unfold transformed.
    destruct (contains _ _) eqn:E; [reflexivity|].
    apply H, contains_In in Hl. congruence.
Qed.

Lemma main_recolours_whole_text_witness :
  exists fout,
    main (all_open (ex_line ++ ex_line2) ex_good_both) =
      {| raised := None; asm_karyotype2 := Some fout |} /\
    contents fout = replace vvlgrey red (ex_line ++ ex_line2).
Proof.
  apply (main_recolours_whole_text (ex_line ++ ex_line2) ex_good_both).
  - apply forallb_four_fields. vm_compute. reflexivity.
  - intros line H. vm_compute in H.
    destruct H as [<-|[<-|[]]]; vm_compute; tauto.
Defined.







(** X12. Only the white space at the end of a name is stripped, and no
    field holds white space: a name written with white space in front
    or inside matches no line.  Two names files that hold the same
    names without white space give the same run. *)
Theorem main_ignores_spaced_names fin a b w :
  (forall x, spaceless x = true ->
             (In x (load_tigs a) <-> In x (load_tigs b))) ->
  main {| asm_karyotype := fin; good_contigs_txt := Some a;
          asm_karyotype2_writable := w |} =
  main {| asm_karyotype := fin; good_contigs_txt := Some b;
          asm_karyotype2_writable := w |}.
Proof.
  intros H. unfold main. simpl.
  destruct fin as [fin|]; [|reflexivity].
  destruct w; [|reflexivity].
  rewrite (for_lines_is_good (load_tigs a) (load_tigs b)); [reflexivity|].
  intros line. apply is_good_spaceless. assumption.
Qed.

Lemma main_ignores_spaced_names_witness :
  main {| asm_karyotype := Some (ex_line ++ ex_line2);
          good_contigs_txt := Some ex_good_indented;
          asm_karyotype2_writable := true |} =
  main {| asm_karyotype := Some (ex_line ++ ex_line2);
          good_contigs_txt := Some ex_good_second;
          asm_karyotype2_writable := true |}.
Proof.
  apply (main_ignores_spaced_names (Some (ex_line ++ ex_line2))
           ex_good_indented ex_good_second true).
  intros x Hx. split; intros H; vm_compute in H.
  - destruct H as [<-|[<-|[]]]; [vm_compute in Hx; discriminate Hx|].
    vm_compute. left. reflexivity.
  - destruct H as [<-|[]]. vm_compute. right. left. reflexivity.
Defined.

(** X13. However the run ends, the output file holds nothing but lines
    of the input, from the first on and in their order, each as it was
    or recoloured. *)
Theorem main_writes_prefix fs fin fout :
  asm_karyotype fs = Some fin ->
  asm_karyotype2 (main fs) = Some fout ->
  (length fout <= length (readlines fin))%nat /\
  Forall2 (fun line out => out = line \/ out = recolour line)
          (firstn (length fout) (readlines fin)) fout.
Proof.
  assert (T : forall tigs l,
             Forall2 (fun line out => out = line \/ out = recolour line)
                     l (map (transformed tigs) l)).
  { intros tigs l. apply Forall2_map_r. apply Forall_forall.
    intros line _. apply transformed_cases. }
  destruct fs as [fin' [fin2|] [|]]; simpl; intros -> H; try discriminate H.
  - revert H.
    change (asm_karyotype2 (main (all_open fin fin2)) = Some fout ->
            (length fout <= length (readlines fin))%nat /\
            Forall2 (fun line out => out = line \/ out = recolour line)
                    (firstn (length fout) (readlines fin)) fout).
    destruct (lines_four_or_short (readlines fin)) as [F|S].
    + rewrite (main_all fin fin2 F). intros [= <-].
      rewrite length_map, firstn_all. split; [lia | apply T].
    + apply first_short in S as (pre & bad & post & E & Hpre & Hbad).
      rewrite (main_stop fin fin2 pre bad post E Hpre Hbad). intros [= <-].
      rewrite E, length_map, length_app, firstn_app, Nat.sub_diag, firstn_all.
      simpl. rewrite app_nil_r. split; [lia | apply T].
  - injection H as <-. simpl. split; [lia | constructor].
Qed.

Lemma main_writes_prefix_witness :
  (length [recolour ex_line] <= length (readlines (ex_line ++ ex_short ++ ex_line2)))%nat /\
  Forall2 (fun line out => out = line \/ out = recolour line)
          (firstn (length [recolour ex_line])
                  (readlines (ex_line ++ ex_short ++ ex_line2)))
          [recolour ex_line].
Proof.
  apply (main_writes_prefix (all_open (ex_line ++ ex_short ++ ex_line2) ex_good)
           (ex_line ++ ex_short ++ ex_line2) [recolour ex_line]).
  - reflexivity.
  - vm_compute. reflexivity.
Defined.
